(** * MT5 TCP bridge (server.py): command/response correlation

    A shallow embedding of [server.py]: the acceptor thread [tcp_server],
    the blocking helper [send_command_to_mt5] and the HTTP endpoints built
    on it, followed by the properties of the bridge.

    Conventions.
    - Bytes are [list byte]; Python [str] values are [string].
    - Times are integers in milliseconds: [time.time()] reads [clock],
      [time.sleep(0.1)] lasts 100, the default [timeout = 10] is 10000.
    - [json.dumps(..).encode('utf-8')], [json.loads(..decode('utf-8'))] and
      [str(e)] are library code: the model takes them as parameters
      [dumps], [loads] and [str]. [dumps] is total: the model covers the
      commands that [json.dumps] serialises, as the endpoints' commands
      are unless an integer exceeds the interpreter's digit limit. A small
      codec for a fragment of JSON instantiates the parameters in the
      worked examples. *)

From Stdlib Require Import ZArith NArith List String Ascii Bool Lia.
From Stdlib.Strings Require Import Byte.
From Stdlib Require Import DecimalString.
From stdpp Require Import list.
Import ListNotations.
Open Scope string_scope.
Open Scope list_scope.
Open Scope Z_scope.

Abbreviation bytes := (list byte).

(** ** Values *)

(** What [json.loads] returns and [json.dumps] accepts. A dict keeps its
    insertion order. *)
#[warnings="-register-all"] Inductive Json (float : Type) : Type :=
| JNull
| JBool (b : bool)
| JInt (n : Z)
| JFloat (x : float)
| JStr (s : string)
| JList (items : list (Json float))
| JDict (members : list (string * Json float)).

Arguments JNull {float}.
Arguments JBool {float} b.
Arguments JInt {float} n.
Arguments JFloat {float} x.
Arguments JStr {float} s.
Arguments JList {float} items.
Arguments JDict {float} members.

(** The exceptions that occur in [server.py]. [KeyboardInterrupt] and
    [SystemExit] derive from [BaseException] only; the others derive from
    [Exception]. *)
Inductive PyExc : Type :=
| OSError (msg : string)
| UnboundLocalError (name : string)
| HTTPException (status_code : Z) (detail : string)
| KeyboardInterrupt
| SystemExit.

(** [isinstance(e, Exception)], the test of an [except Exception] clause. *)
Definition is_Exception (e : PyExc) : bool :=
  match e with
  | OSError _ | UnboundLocalError _ | HTTPException _ _ => true
  | KeyboardInterrupt | SystemExit => false
  end.

Inductive Result (A : Type) : Type :=
| Return (a : A)
| Raise (e : PyExc).

Arguments Return {A} a.
Arguments Raise {A} e.

(** ** Sockets *)

(** One call of [client_socket.recv(4096)]: bytes (empty at end of stream)
    or an [OSError]. *)
Inductive Recv : Type :=
| RecvBytes (chunk : bytes)
| RecvRaises (msg : string).

(** The remote client on one connection: whether [sendall] and [close] fail
    and what successive [recv] calls yield. Once [reads] is used up the peer
    has closed its end and [recv] returns [b'']. *)
Record Peer : Type := mkPeer {
  sendall_raises : option string;
  reads : list Recv;
  close_raises : option string
}.

(** [client_socket] while a connection is handled. *)
Record Socket : Type := mkSocket {
  peer : Peer;
  inbound : list Recv;      (* what the remaining recv calls will yield *)
  outbound : list bytes;    (* argument of each sendall call, oldest first *)
  close_called : bool
}.

Definition connect (p : Peer) : Socket := mkSocket p (reads p) [] false.

(** One call of [server_socket.accept()]. *)
Inductive Accept : Type :=
| AcceptRaises (msg : string)
| Accepted (address : string) (p : Peer).

(** [b'{"status":"waiting"}'] (byte 0x22 is the double quote). *)
Definition STATUS_WAITING : bytes :=
  list_byte_of_string "{" ++ [x22] ++ list_byte_of_string "status" ++ [x22]
  ++ list_byte_of_string ":" ++ [x22] ++ list_byte_of_string "waiting"
  ++ [x22] ++ list_byte_of_string "}".

Section Bridge.

Context {float : Type}.
Variable dumps : Json float -> bytes.
Variable loads : bytes -> option (Json float).
Variable str : PyExc -> string.

(** ** Shared state *)

(** The lines [tcp_server] prints. *)
Inductive Line : Type :=
| Connected (address : string)
| SentToMQL5 (command_json : bytes)
| ReceivedFromMQL5 (response : Json float)
| ServerError (e : PyExc).

(** The module globals [command_queue] and [response_queue] (head = oldest
    item), the local variable [response] of [tcp_server], which keeps its
    value from one pass of the accept loop to the next and is unbound
    ([None]) until first assigned, standard output and the wall clock. *)
Record World : Type := mkWorld {
  command_queue : list (Json float);
  response_queue : list (Json float);
  response : option (Json float);
  stdout : list Line;
  clock : Z
}.

Definition start_of_day : World := mkWorld [] [] None [] 0.

Definition set_command_queue (q : list (Json float)) (w : World) : World :=
  mkWorld q (response_queue w) (response w) (stdout w) (clock w).

Definition set_response_queue (q : list (Json float)) (w : World) : World :=
  mkWorld (command_queue w) q (response w) (stdout w) (clock w).

Definition set_response (r : option (Json float)) (w : World) : World :=
  mkWorld (command_queue w) (response_queue w) r (stdout w) (clock w).

Definition set_stdout (o : list Line) (w : World) : World :=
  mkWorld (command_queue w) (response_queue w) (response w) o (clock w).

Definition set_clock (t : Z) (w : World) : World :=
  mkWorld (command_queue w) (response_queue w) (response w) (stdout w) t.

(** ** The acceptor thread *)

(** Statements of the [try] block run on the shared state and the accepted
    socket; a raised exception leaves both as they were at the raise. *)
Definition M (A : Type) : Type := World * Socket -> Result A * (World * Socket).

Definition ret {A} (a : A) : M A := fun st => (Return a, st).

Definition raise {A} (e : PyExc) : M A := fun st => (Raise e, st).

Definition bind {A B} (m : M A) (k : A -> M B) : M B :=
  fun st =>
    match m st with
    | (Return a, st') => k a st'
    | (Raise e, st') => (Raise e, st')
    end.

Notation "x <- m ;; k" := (bind m (fun x => k))
  (at level 100, m at next level, right associativity).
Notation "m ;;; k" := (bind m (fun _ => k))
  (at level 100, right associativity).

Definition print (l : Line) : M unit :=
  fun '(w, s) => (Return tt, (set_stdout (stdout w ++ [l]) w, s)).

(** [if not command_queue.empty(): command = command_queue.get()]. The
    acceptor is the only consumer of [command_queue], so [get] returns the
    item [empty] saw. *)
Definition command_queue_get : M (option (Json float)) :=
  fun '(w, s) =>
    match command_queue w with
    | [] => (Return None, (w, s))
    | command :: rest => (Return (Some command), (set_command_queue rest w, s))
    end.

Definition response_queue_put (r : Json float) : M unit :=
  fun '(w, s) => (Return tt, (set_response_queue (response_queue w ++ [r]) w, s)).

(** [client_socket.sendall(data)]. *)
Definition sendall (data : bytes) : M unit :=
  fun '(w, s) =>
    let s' := mkSocket (peer s) (inbound s) (outbound s ++ [data]) (close_called s) in
    match sendall_raises (peer s) with
    | Some msg => (Raise (OSError msg), (w, s'))
    | None => (Return tt, (w, s'))
    end.

(** [client_socket.close()]. *)
Definition close : M unit :=
  fun '(w, s) =>
    let s' := mkSocket (peer s) (inbound s) (outbound s) true in
    match close_raises (peer s) with
    | Some msg => (Raise (OSError msg), (w, s'))
    | None => (Return tt, (w, s'))
    end.

(** How the inner [while True] of [tcp_server] ends. *)
Inductive Framed : Type :=
| Parsed (r : Json float)            (* json.loads succeeded: response assigned, break *)
| EndOfStream (response_data : bytes) (* recv returned b'': break, nothing assigned *)
| RecvFailed (msg : string).          (* recv raised *)

(** The inner loop: append each chunk to [response_data] and try to parse
    the whole buffer; the bare [except: continue] swallows a failed decode
    or parse. Returns with the recv results it did not consume. *)
Fixpoint read_reply (pending : list Recv) (response_data : bytes)
  : Framed * list Recv :=
  match pending with
  | [] => (EndOfStream response_data, [])
  | RecvRaises msg :: rest => (RecvFailed msg, rest)
  | RecvBytes [] :: rest => (EndOfStream response_data, rest)
  | RecvBytes chunk :: rest =>
      let response_data := response_data ++ chunk in
      match loads response_data with
      | Some r => (Parsed r, rest)
      | None => read_reply rest response_data
      end
  end.

(** The framing contract as the specification words it: the parse of the
    shortest prefix of the byte stream that is a complete document, wherever
    the chunks end. [seen] is the part of the stream already passed. *)
Fixpoint spec_first_document (seen stream : bytes) : option (Json float) :=
  match stream with
  | [] => None
  | b :: rest =>
      match loads (seen ++ [b]) with
      | Some r => Some r
      | None => spec_first_document (seen ++ [b]) rest
      end
  end.

(** [response_data = b''] and the inner loop, on [client_socket]. *)
Definition receive : M unit :=
  fun '(w, s) =>
    let '(framed, rest) := read_reply (inbound s) [] in
    let s' := mkSocket (peer s) rest (outbound s) (close_called s) in
    match framed with
    | Parsed r => (Return tt, (set_response (Some r) w, s'))
    | EndOfStream _ => (Return tt, (w, s'))
    | RecvFailed msg => (Raise (OSError msg), (w, s'))
    end.

(** Reading the local variable [response]. *)
Definition load_response : M (Json float) :=
  fun '(w, s) =>
    match response w with
    | Some r => ret r (w, s)
    | None => raise (UnboundLocalError "response") (w, s)
    end.

(** The [try] block of [tcp_server] after [accept()] has returned. *)
Definition serve (address : string) : M unit :=
  print (Connected address) ;;;
  queued <- command_queue_get ;;
  match queued with
  | Some command =>
      let command_json := dumps command in
      sendall command_json ;;;
      print (SentToMQL5 (firstn 100 command_json)) ;;;
      receive ;;;
      r <- load_response ;;
      print (ReceivedFromMQL5 r) ;;;
      response_queue_put r
  | None =>
      sendall STATUS_WAITING
  end ;;;
  close.

(** What one pass of the accept loop did: the accepted socket as the pass
    left it ([None] when [accept] raised) and the exception the [except]
    clause caught, if any. *)
Record Pass : Type := mkPass {
  socket : option Socket;
  caught : option PyExc
}.

Inductive Control : Type :=
| Continue
| Propagate (e : PyExc).

(** [except Exception as e: print(...)]; any other exception leaves the
    loop. *)
Definition except_Exception (e : PyExc) (w : World) : World * Control :=
  if is_Exception e
  then (set_stdout (stdout w ++ [ServerError e]) w, Continue)
  else (w, Propagate e).

(** One pass of the outer [while True]. *)
Definition accept_once (a : Accept) (w : World) : World * Pass * Control :=
  match a with
  | AcceptRaises msg =>
      let '(w', ctl) := except_Exception (OSError msg) w in
      (w', mkPass None (Some (OSError msg)), ctl)
  | Accepted address p =>
      match serve address (w, connect p) with
      | (Return _, (w', s)) => (w', mkPass (Some s) None, Continue)
      | (Raise e, (w', s)) =>
          let '(w'', ctl) := except_Exception e w' in
          (w'', mkPass (Some s) (Some e), ctl)
      end
  end.

Inductive Status : Type :=
| Accepting                (* blocked in accept(), waiting for a client *)
| Terminated (e : PyExc).  (* an exception left the loop *)

(** The accept loop of [tcp_server], run over the results of its successive
    [accept()] calls. *)
Fixpoint tcp_server (incoming : list Accept) (w : World)
  : World * list Pass * Status :=
  match incoming with
  | [] => (w, [], Accepting)
  | a :: rest =>
      match accept_once a w with
      | (w', pass, Continue) =>
          let '(w'', passes, status) := tcp_server rest w' in
          (w'', pass :: passes, status)
      | (w', pass, Propagate e) => (w', [pass], Terminated e)
      end
  end.

(** ** Callers: [send_command_to_mt5] *)

Definition TIMEOUT_DETAIL : string := "MT5 timeout - EA not connecting".

(** [command_queue.put(command)]. *)
Definition command_queue_put (command : Json float) (w : World) : World :=
  set_command_queue (command_queue w ++ [command]) w.

Inductive Checked : Type :=
| Got (response : Json float)   (* return response *)
| Sleep                         (* time.sleep(0.1), then test again *)
| TimedOut.                     (* the while condition is false *)

(** The test [time.time() - start < timeout] and, when it holds, the body of
    the wait loop up to [time.sleep]. The test [empty()] and the [get()]
    that follows it are taken as one step: no other caller takes the item
    in between. *)
Definition check (start timeout : Z) (w : World) : World * Checked :=
  if clock w - start <? timeout then
    match response_queue w with
    | r :: rest => (set_response_queue rest w, Got r)
    | [] => (w, Sleep)
    end
  else (w, TimedOut).

(** The wait loop. [sleep n w] is the world the caller wakes up in after its
    [n]-th [time.sleep(0.1)], entered in world [w]: what the clock and the
    other threads did meanwhile. [None]: the loop is still running when
    [fuel] passes are used up. *)
Fixpoint wait (fuel : nat) (sleep : nat -> World -> World) (n : nat)
    (start timeout : Z) (w : World) : option (World * Result (Json float)) :=
  match fuel with
  | O => None
  | S fuel' =>
      match check start timeout w with
      | (w', Got r) => Some (w', Return r)
      | (w', TimedOut) => Some (w', Raise (HTTPException 504 TIMEOUT_DETAIL))
      | (w', Sleep) => wait fuel' sleep (S n) start timeout (sleep n w')
      end
  end.

Definition send_command_to_mt5 (fuel : nat) (sleep : nat -> World -> World)
    (command : Json float) (timeout : Z) (w : World)
  : option (World * Result (Json float)) :=
  let w := command_queue_put command w in
  let start := clock w in
  wait fuel sleep O start timeout w.

(** [ms] milliseconds go by and nothing else happens. *)
Definition time_passes (ms : Z) (w : World) : World := set_clock (clock w + ms) w.

(** Every [time.sleep(0.1)] lasts exactly 100 ms and no other thread runs. *)
Definition undisturbed : nat -> World -> World := fun _ => time_passes 100.

(** During the [n]-th sleep the acceptor handles the connections
    [incoming n]. *)
Definition meanwhile (incoming : nat -> list Accept) : nat -> World -> World :=
  fun n w => time_passes 100 (fst (fst (tcp_server (incoming n) w))).

(** ** HTTP endpoints *)

Record OrderCommand : Type := mkOrderCommand {
  action : string;
  order_type : string;
  symbol : string;
  price : float;
  sl : float;
  tp_levels : list float;
  lot_size : float;
  deviation : Z;
  comment : string;
  magic_number : Z;
  partial_close_percent : float
}.

(** The [try: ... return response / except Exception as e: raise
    HTTPException(status_code=500, detail=str(e))] every endpoint wraps
    around its call of [send_command_to_mt5]. *)
Definition try_return (call : option (World * Result (Json float)))
  : option (World * Result (Json float)) :=
  match call with
  | None => None
  | Some (w, Return response) => Some (w, Return response)
  | Some (w, Raise e) =>
      if is_Exception e
      then Some (w, Raise (HTTPException 500 (str e)))
      else Some (w, Raise e)
  end.

Definition DEFAULT_TIMEOUT : Z := 10000.

Definition create_order_command (order : OrderCommand) : Json float :=
  JDict [("action", JStr "PLACE_ORDER");
         ("data", JDict [("order_type", JStr (order_type order));
                         ("symbol", JStr (symbol order));
                         ("price", JFloat (price order));
                         ("sl", JFloat (sl order));
                         ("tp_levels", JList (map JFloat (tp_levels order)));
                         ("lot_size", JFloat (lot_size order));
                         ("deviation", JInt (deviation order));
                         ("comment", JStr (comment order));
                         ("magic_number", JInt (magic_number order));
                         ("partial_close_percent",
                          JFloat (partial_close_percent order))])].

Definition get_positions_command : Json float :=
  JDict [("action", JStr "GET_POSITIONS")].

Definition get_orders_command : Json float :=
  JDict [("action", JStr "GET_ORDERS")].

Definition delete_order_command (ticket : Z) : Json float :=
  JDict [("action", JStr "DELETE_ORDER"); ("data", JDict [("ticket", JInt ticket)])].

Definition close_position_command (ticket : Z) : Json float :=
  JDict [("action", JStr "CLOSE_POSITION"); ("data", JDict [("ticket", JInt ticket)])].

Definition get_stats_command : Json float :=
  JDict [("action", JStr "GET_STATS")].

Definition safe_shutdown_command : Json float :=
  JDict [("action", JStr "SAFE_SHUTDOWN")].

Section Endpoints.

Variable fuel : nat.
Variable sleep : nat -> World -> World.

Definition create_order (order : OrderCommand) (w : World) :=
  try_return (send_command_to_mt5 fuel sleep (create_order_command order) DEFAULT_TIMEOUT w).

Definition get_positions (w : World) :=
  try_return (send_command_to_mt5 fuel sleep get_positions_command DEFAULT_TIMEOUT w).

Definition get_orders (w : World) :=
  try_return (send_command_to_mt5 fuel sleep get_orders_command DEFAULT_TIMEOUT w).

Definition delete_order (ticket : Z) (w : World) :=
  try_return (send_command_to_mt5 fuel sleep (delete_order_command ticket) DEFAULT_TIMEOUT w).

Definition close_position (ticket : Z) (w : World) :=
  try_return (send_command_to_mt5 fuel sleep (close_position_command ticket) DEFAULT_TIMEOUT w).

Definition get_stats (w : World) :=
  try_return (send_command_to_mt5 fuel sleep get_stats_command DEFAULT_TIMEOUT w).

Definition safe_shutdown (w : World) :=
  try_return (send_command_to_mt5 fuel sleep safe_shutdown_command DEFAULT_TIMEOUT w).

(** The routes of [app] that go through the bridge. *)
Inductive Request : Type :=
| POST_order (order : OrderCommand)
| GET_positions
| GET_orders
| DELETE_order (ticket : Z)
| DELETE_position (ticket : Z)
| GET_stats
| POST_safe_shutdown.

Definition app (req : Request) (w : World) : option (World * Result (Json float)) :=
  match req with
  | POST_order order => create_order order w
  | GET_positions => get_positions w
  | GET_orders => get_orders w
  | DELETE_order ticket => delete_order ticket w
  | DELETE_position ticket => close_position ticket w
  | GET_stats => get_stats w
  | POST_safe_shutdown => safe_shutdown w
  end.

(** The command each route hands to [send_command_to_mt5]. *)
Definition command_of (req : Request) : Json float :=
  match req with
  | POST_order order => create_order_command order
  | GET_positions => get_positions_command
  | GET_orders => get_orders_command
  | DELETE_order ticket => delete_order_command ticket
  | DELETE_position ticket => close_position_command ticket
  | GET_stats => get_stats_command
  | POST_safe_shutdown => safe_shutdown_command
  end.

End Endpoints.

(** ** Threads running together *)

(** A call of [send_command_to_mt5]: its arguments, the value of [start],
    and where it stands: in the wait loop, asleep until [wake], or over. *)
Inductive Progress : Type :=
| Waiting (wake : Z)
| Done (result : Result (Json float)).

Record Call : Type := mkCall {
  command : Json float;
  timeout : Z;
  start : Z;
  progress : Progress
}.

(** The process: the shared state, every call made so far (a call is named
    by its position), the passes of the accept loop so far and whether the
    acceptor thread is alive. *)
Record System : Type := mkSystem {
  world : World;
  calls : list Call;
  passes : list Pass;
  acceptor : Status
}.

Definition boot : System := mkSystem start_of_day [] [] Accepting.

(** What can happen next. A step is one call of [accept_once], the entry of
    [send_command_to_mt5] up to [start = time.time()], or one [check]. *)
Inductive Event : Type :=
| Invoke (command : Json float) (timeout : Z)  (* a thread calls send_command_to_mt5 *)
| Poll (i : nat)                                (* call i wakes up and tests again *)
| Elapse (ms : Z)                               (* the clock moves *)
| Arrive (a : Accept).                          (* accept() returns or raises *)

Definition finish (i : nat) (c : Call) (p : Progress) (w : World) (sys : System)
  : System :=
  mkSystem w (<[i := mkCall (command c) (timeout c) (start c) p]> (calls sys))
           (passes sys) (acceptor sys).

Definition step (ev : Event) (sys : System) : System :=
  match ev with
  | Invoke command timeout =>
      let w := command_queue_put command (world sys) in
      let start := clock w in
      mkSystem w (calls sys ++ [mkCall command timeout start (Waiting start)])
               (passes sys) (acceptor sys)
  | Poll i =>
      match calls sys !! i with
      | Some c =>
          match progress c with
          | Waiting wake =>
              if clock (world sys) <? wake then sys
              else
                match check (start c) (timeout c) (world sys) with
                | (w, Got r) => finish i c (Done (Return r)) w sys
                | (w, TimedOut) =>
                    finish i c (Done (Raise (HTTPException 504 TIMEOUT_DETAIL))) w sys
                | (w, Sleep) => finish i c (Waiting (clock w + 100)) w sys
                end
          | Done _ => sys
          end
      | None => sys
      end
  | Elapse ms =>
      mkSystem (time_passes ms (world sys)) (calls sys) (passes sys) (acceptor sys)
  | Arrive a =>
      match acceptor sys with
      | Accepting =>
          let '(w, pass, ctl) := accept_once a (world sys) in
          mkSystem w (calls sys) (passes sys ++ [pass])
                   match ctl with
                   | Continue => Accepting
                   | Propagate e => Terminated e
                   end
      | Terminated _ => sys
      end
  end.

Definition run (schedule : list Event) (sys : System) : System :=
  fold_left (fun s ev => step ev s) schedule sys.

(** An accepted client connection, as opposed to any other event. *)
Definition is_connection (ev : Event) : bool :=
  match ev with
  | Arrive (Accepted _ _) => true
  | _ => false
  end.

Definition is_invoke (ev : Event) : bool :=
  match ev with
  | Invoke _ _ => true
  | _ => false
  end.

(** The commands a schedule submits, in order. *)
Definition submitted (schedule : list Event) : list (Json float) :=
  flat_map (fun ev => match ev with Invoke c _ => [c] | _ => [] end) schedule.

(** The schedule of call [i] left to itself: it tests and, for each of its
    [sleeps] sleeps, 100 ms go by and it tests again. *)
Fixpoint alone (i : nat) (sleeps : nat) : list Event :=
  match sleeps with
  | O => [Poll i]
  | S sleeps' => Poll i :: Elapse 100 :: alone i sleeps'
  end.

(** The accepted sockets among the passes, oldest first. *)
Definition connections (sys : System) : list Socket :=
  omap socket (passes sys).


(** How many of the [accept()] calls return a connection. *)
Fixpoint accepted (incoming : list Accept) : nat :=
  match incoming with
  | [] => O
  | Accepted _ _ :: rest => S (accepted rest)
  | AcceptRaises _ :: rest => accepted rest
  end.


(** The response a step hands to a caller: what call [i] returns when its
    test of the queue finds one. *)
Definition handed_by (ev : Event) (sys : System) : list (Json float) :=
  match ev with
  | Poll i =>
      match calls sys !! i, calls (step ev sys) !! i with
      | Some before, Some after =>
          match progress before, progress after with
          | Waiting _, Done (Return r) => [r]
          | _, _ => []
          end
      | _, _ => []
      end
  | _ => []
  end.

(** The responses a step puts on [response_queue]: what the queue has
    gained at its tail when the step is a pass of the accept loop. *)
Definition delivered_by (ev : Event) (sys : System) : list (Json float) :=
  match ev with
  | Arrive _ =>
      drop (length (response_queue (world sys)))
        (response_queue (world (step ev sys)))
  | _ => []
  end.

(** The responses handed to callers, and those put on [response_queue],
    in the course of a schedule, oldest first. *)
Fixpoint handed (schedule : list Event) (sys : System) : list (Json float) :=
  match schedule with
  | [] => []
  | ev :: rest => handed_by ev sys ++ handed rest (step ev sys)
  end.

Fixpoint delivered (schedule : list Event) (sys : System) : list (Json float) :=
  match schedule with
  | [] => []
  | ev :: rest => delivered_by ev sys ++ delivered rest (step ev sys)
  end.

End Bridge.

Arguments STATUS_WAITING : simpl never.

(** ** A codec for the worked examples

    [json.dumps], [json.loads] and [str] on the float-free, escape-free
    ASCII fragment of JSON: [null], booleans, integers, strings of printable
    ASCII characters, lists and dicts. It serves the inputs of the examples
    below, on which it returns what the json module returns; [loads]
    rejects the documents outside the fragment (fractions and exponents,
    [NaN] and [Infinity], backslash escapes, non-ASCII text). *)
Module Example.

Definition float : Type := Empty_set.

Definition dquote : ascii := "034"%char.

Definition hex_digit (n : N) : ascii :=
  ascii_of_N (if (n <? 10)%N then 48 + n else 87 + n)%N.

(** [ESCAPE_ASCII] of the json module (ensure_ascii=True). *)
Definition escape (c : ascii) : string :=
  let n := N_of_ascii c in
  if (n =? 34)%N then "\" ++ String dquote ""
  else if (n =? 92)%N then "\\"
  else if (n =? 8)%N then "\b"
  else if (n =? 12)%N then "\f"
  else if (n =? 10)%N then "\n"
  else if (n =? 13)%N then "\r"
  else if (n =? 9)%N then "\t"
  else if ((32 <=? n) && (n <=? 126))%N then String c ""
  else "\u00" ++ String (hex_digit (n / 16)) (String (hex_digit (n mod 16)) "").

Fixpoint escaped (s : string) : string :=
  match s with
  | EmptyString => ""
  | String c rest => escape c ++ escaped rest
  end.

Definition quoted (s : string) : string :=
  String dquote (escaped s) ++ String dquote "".

Definition decimal (n : Z) : string := NilZero.string_of_int (Z.to_int n).

(** [json.dumps] with its default separators [", "] and [": "]. *)
Fixpoint encode (j : Json float) : string :=
  match j with
  | JNull => "null"
  | JBool true => "true"
  | JBool false => "false"
  | JInt n => decimal n
  | JFloat x => match x with end
  | JStr s => quoted s
  | JList items => "[" ++ String.concat ", " (map encode items) ++ "]"
  | JDict members =>
      "{" ++ String.concat ", "
               (map (fun kv => quoted (fst kv) ++ ": " ++ encode (snd kv)) members)
          ++ "}"
  end%string.

Definition dumps (j : Json float) : bytes := list_byte_of_string (encode j).

Definition is_ws (c : ascii) : bool :=
  let n := N_of_ascii c in
  ((n =? 32) || (n =? 9) || (n =? 10) || (n =? 13))%N.

Fixpoint skip_ws (s : string) : string :=
  match s with
  | String c rest => if is_ws c then skip_ws rest else s
  | EmptyString => s
  end.

Definition digit (c : ascii) : option Z :=
  let n := Z.of_N (N_of_ascii c) in
  if (48 <=? n) && (n <=? 57) then Some (n - 48) else None.

Fixpoint digits (acc : Z) (s : string) : Z * string :=
  match s with
  | String c rest =>
      match digit c with
      | Some d => digits (10 * acc + d) rest
      | None => (acc, s)
      end
  | EmptyString => (acc, s)
  end.

Definition starts_float_part (s : string) : bool :=
  match s with
  | String c _ => ((c =? ".") || (c =? "e") || (c =? "E"))%char
  | EmptyString => false
  end.

(** An optional minus sign, then 0 or a digit 1-9 followed by digits; [None]
    when a fraction or an exponent follows. *)
Definition parse_int (s : string) : option (Z * string) :=
  let '(sign, s) :=
    match s with
    | String c rest => if (c =? "-")%char then (-1, rest) else (1, s)
    | EmptyString => (1, s)
    end in
  match s with
  | String c rest =>
      match digit c with
      | Some d =>
          let '(n, rest) := if d =? 0 then (0, rest) else digits d rest in
          if starts_float_part rest then None else Some (sign * n, rest)
      | None => None
      end
  | EmptyString => None
  end.

(** The characters of a string up to its closing quote. *)
Fixpoint parse_string (s : string) : option (string * string) :=
  match s with
  | String c rest =>
      let n := N_of_ascii c in
      if (n =? 34)%N then Some ("", rest)
      else if ((n =? 92) || (n <? 32) || (126 <? n))%N then None
      else
        match parse_string rest with
        | Some (body, rest') => Some (String c body, rest')
        | None => None
        end
  | EmptyString => None
  end.

Fixpoint strip (prefix s : string) : option string :=
  match prefix, s with
  | EmptyString, _ => Some s
  | String a p, String b rest => if (a =? b)%char then strip p rest else None
  | String _ _, EmptyString => None
  end.

(** A dict keeps the place of the first occurrence of a key and the value of
    the last. *)
Fixpoint dict_set (k : string) (v : Json float) (members : list (string * Json float))
  : list (string * Json float) :=
  match members with
  | [] => [(k, v)]
  | (k', v') :: rest =>
      if String.eqb k k' then (k', v) :: rest else (k', v') :: dict_set k v rest
  end.

Fixpoint parse_value (fuel : nat) (s : string) : option (Json float * string) :=
  match fuel with
  | O => None
  | S fuel =>
      match s with
      | EmptyString => None
      | String c rest =>
          if (c =? "n")%char then option_map (pair JNull) (strip "ull" rest)
          else if (c =? "t")%char then option_map (pair (JBool true)) (strip "rue" rest)
          else if (c =? "f")%char then option_map (pair (JBool false)) (strip "alse" rest)
          else if (c =? dquote)%char then
            match parse_string rest with
            | Some (body, rest') => Some (JStr body, rest')
            | None => None
            end
          else if (c =? "[")%char then
            match skip_ws rest with
            | String c' rest' =>
                if (c' =? "]")%char then Some (JList [], rest')
                else parse_items fuel [] (skip_ws rest)
            | EmptyString => None
            end
          else if (c =? "{")%char then
            match skip_ws rest with
            | String c' rest' =>
                if (c' =? "}")%char then Some (JDict [], rest')
                else parse_members fuel [] (skip_ws rest)
            | EmptyString => None
            end
          else
            match parse_int s with
            | Some (n, rest') => Some (JInt n, rest')
            | None => None
            end
      end
  end
with parse_items (fuel : nat) (acc : list (Json float)) (s : string)
  : option (Json float * string) :=
  match fuel with
  | O => None
  | S fuel =>
      match parse_value fuel s with
      | Some (v, rest) =>
          match skip_ws rest with
          | String c rest' =>
              if (c =? ",")%char then parse_items fuel (acc ++ [v]) (skip_ws rest')
              else if (c =? "]")%char then Some (JList (acc ++ [v]), rest')
              else None
          | EmptyString => None
          end
      | None => None
      end
  end
with parse_members (fuel : nat) (acc : list (string * Json float)) (s : string)
  : option (Json float * string) :=
  match fuel with
  | O => None
  | S fuel =>
      match s with
      | String q rest =>
          if (q =? dquote)%char then
            match parse_string rest with
            | Some (key, rest) =>
                match skip_ws rest with
                | String colon rest =>
                    if (colon =? ":")%char then
                      match parse_value fuel (skip_ws rest) with
                      | Some (v, rest) =>
                          match skip_ws rest with
                          | String c rest' =>
                              if (c =? ",")%char
                              then parse_members fuel (dict_set key v acc) (skip_ws rest')
                              else if (c =? "}")%char
                              then Some (JDict (dict_set key v acc), rest')
                              else None
                          | EmptyString => None
                          end
                      | None => None
                      end
                    else None
                | EmptyString => None
                end
            | None => None
            end
          else None
      | EmptyString => None
      end
  end.

(** [json.loads(data.decode('utf-8'))]; [None] when it raises. *)
Definition loads (data : bytes) : option (Json float) :=
  let s := string_of_list_byte data in
  match parse_value (2 * String.length s + 2) (skip_ws s) with
  | Some (v, rest) =>
      match skip_ws rest with
      | EmptyString => Some v
      | String _ _ => None
      end
  | None => None
  end.

(** [str(e)]: the message of an [OSError], the text CPython gives an
    [UnboundLocalError], and [HTTPException.__str__]. *)
Definition str (e : PyExc) : string :=
  match e with
  | OSError msg => msg
  | UnboundLocalError name =>
      "cannot access local variable '" ++ name
      ++ "' where it is not associated with a value"
  | HTTPException status_code detail => decimal status_code ++ ": " ++ detail
  | KeyboardInterrupt => ""
  | SystemExit => ""
  end%string.

(** Bytes of an ASCII text in which [`] stands for the double quote. *)
Definition ascii_bytes (text : string) : bytes :=
  map (fun b => if Byte.eqb b x60 then x22 else b) (list_byte_of_string text).

(** *** Scenes for the worked examples *)

(** The address [accept()] reports for the EA. *)
Definition EA : string := "('127.0.0.1', 51234)".

(** A client whose socket never fails and that sends [chunks], then closes. *)
Definition sends (chunks : list bytes) : Peer := mkPeer None (map RecvBytes chunks) None.

(** A client that closes without sending a byte. *)
Definition hangs_up : Peer := sends [].

Definition balance_reply : bytes := ascii_bytes "{`balance`: 1000}".

Definition balance : Json float := JDict [("balance", JInt 1000)].

(** A bridge on which one call has timed out and left its command behind. *)
Definition after_timeout : System (float:=float) :=
  run dumps loads [Invoke get_stats_command 1000; Poll 0; Elapse 1000; Poll 0] boot.

(** A client on which the write fails. *)
Definition broken_pipe : Peer := mkPeer (Some "[Errno 32] Broken pipe") [] None.

(** A client that resets the connection after the first half of its reply. *)
Definition resets : Peer :=
  mkPeer None
    [RecvBytes (ascii_bytes "{`balance`"); RecvRaises "[Errno 104] Connection reset by peer"]
    None.

(** A bridge with one reply queued and two callers waiting for one. *)
Definition two_waiting : System (float:=float) :=
  mkSystem (mkWorld [] [balance] (Some balance) [] 300)
    [mkCall get_stats_command 10000 0 (Waiting 300);
     mkCall get_positions_command 10000 100 (Waiting 300)]
    [] Accepting.

(** A bridge on which two calls have timed out, both commands are still
    queued, and nobody has connected yet. *)
Definition after_two_timeouts : System (float:=float) :=
  run dumps loads
    [Invoke get_stats_command 1000; Invoke get_positions_command 1000;
     Elapse 1000; Poll 0; Poll 1] boot.

End Example.

(** * Properties *)

Section Properties.

Context {float : Type}.
Variable dumps : Json float -> bytes.
Variable loads : bytes -> option (Json float).
Variable str : PyExc -> string.

(** ** One pass of the accept loop *)

Ltac run_serve :=
  unfold accept_once, serve, bind, print, command_queue_get, response_queue_put,
    sendall, receive, load_response, close, except_Exception, connect, ret, raise;
  cbn.

Ltac split_cases :=
  repeat match goal with
         | |- context [match ?x with _ => _ end] =>
             lazymatch x with
             | context [match _ with _ => _ end] => fail
             | _ => destruct x eqn:?; cbn in *
             end
         end.


Lemma serve_raises_Exception (address : string) (st st' : World * Socket) (e : PyExc) :
  serve dumps loads address st = (Raise e, st') -> is_Exception e = true.
Proof.
  destruct st as [w s]. run_serve. split_cases; intros H; inversion H; reflexivity.
Qed.

Lemma accept_once_continues (a : Accept) (w : World) :
  (accept_once dumps loads a w).2 = Continue.
Proof.
  destruct a as [msg | address p]; [reflexivity |].
  unfold accept_once.
  destruct (serve dumps loads address (w, connect p)) as [[[] | e] [w' s]] eqn:Hserve;
    [reflexivity |].
  apply serve_raises_Exception in Hserve. unfold except_Exception. rewrite Hserve.
  reflexivity.
Qed.



Lemma accept_once_dispatch (address : string) (p : Peer) (w : World)
    (c : Json float) (rest : list (Json float)) :
  command_queue w = c :: rest ->
  exists s, socket (accept_once dumps loads (Accepted address p) w).1.2 = Some s
            /\ outbound s = [dumps c]
            /\ command_queue (accept_once dumps loads (Accepted address p) w).1.1 = rest.
Proof.
  intros Hq. run_serve. rewrite Hq. cbn. split_cases; eauto.
Qed.

(** A complete reply: the parsed document is appended to [response_queue]
    and stays in the local variable [response]. *)
Lemma accept_once_reply (address : string) (p : Peer) (w : World)
    (c r : Json float) (rest : list (Json float)) :
  command_queue w = c :: rest ->
  sendall_raises p = None ->
  (read_reply loads (reads p) []).1 = Parsed r ->
  let w' := (accept_once dumps loads (Accepted address p) w).1.1 in
  response_queue w' = response_queue w ++ [r] /\ response w' = Some r
  /\ command_queue w' = rest /\ clock w' = clock w.
Proof.
  intros Hq Hs Hr. run_serve. rewrite Hq. cbn. rewrite Hs. cbn.
  destruct (read_reply loads (reads p) []) as [framed unread]. cbn in Hr. subst framed.
  cbn. destruct (close_raises p); cbn; auto.
Qed.

(** The peer closes before any accumulated buffer parses while [response]
    still holds the reply of an earlier connection: that earlier reply is
    put on [response_queue] again and nothing is reported. *)
Lemma accept_once_stale (address : string) (p : Peer) (w : World)
    (c r0 : Json float) (rest : list (Json float)) (data : bytes) :
  command_queue w = c :: rest ->
  sendall_raises p = None ->
  close_raises p = None ->
  (read_reply loads (reads p) []).1 = EndOfStream data ->
  response w = Some r0 ->
  let '(w', pass, _) := accept_once dumps loads (Accepted address p) w in
  response_queue w' = response_queue w ++ [r0]
  /\ caught pass = None
  /\ stdout w' = stdout w ++ [Connected address; SentToMQL5 (take 100 (dumps c));
                               ReceivedFromMQL5 r0].
Proof.
  intros Hq Hs Hc Hr H0. run_serve. rewrite Hq. cbn. rewrite Hs. cbn.
  destruct (read_reply loads (reads p) []) as [framed unread]. cbn in Hr. subst framed.
  cbn. rewrite H0. cbn. rewrite Hc. cbn. rewrite <- !app_assoc. auto.
Qed.

(** The same with [response] never assigned: reading it raises, the
    [except] clause reports that, and [close()] is skipped. *)
Lemma accept_once_unbound (address : string) (p : Peer) (w : World)
    (c : Json float) (rest : list (Json float)) (data : bytes) :
  command_queue w = c :: rest ->
  sendall_raises p = None ->
  (read_reply loads (reads p) []).1 = EndOfStream data ->
  response w = None ->
  let '(w', pass, _) := accept_once dumps loads (Accepted address p) w in
  response_queue w' = response_queue w
  /\ caught pass = Some (UnboundLocalError "response")
  /\ (exists s, socket pass = Some s /\ close_called s = false).
Proof.
  intros Hq Hs Hr H0. run_serve. rewrite Hq. cbn. rewrite Hs. cbn.
  destruct (read_reply loads (reads p) []) as [framed unread]. cbn in Hr. subst framed.
  cbn. rewrite H0. cbn. eauto.
Qed.

(** ** The accept loop *)

Lemma tcp_server_cons (a : Accept) (rest : list Accept) (w : World) :
  tcp_server dumps loads (a :: rest) w =
    let '(w', pass, _) := accept_once dumps loads a w in
    let '(w'', passes, status) := tcp_server dumps loads rest w' in
    (w'', pass :: passes, status).
Proof.
  cbn. pose proof (accept_once_continues a w) as Hc.
  destruct (accept_once dumps loads a w) as [[w' pass] ctl]. cbn in Hc. subst ctl.
  reflexivity.
Qed.




(** ** Framing *)

Lemma read_reply_chunk (chunk : bytes) (pending : list Recv) (seen : bytes) :
  chunk <> [] ->
  read_reply loads (RecvBytes chunk :: pending) seen =
    match loads (seen ++ chunk) with
    | Some r => (Parsed r, pending)
    | None => read_reply loads pending (seen ++ chunk)
    end.
Proof.
  destruct chunk; [congruence | reflexivity].
Qed.

(** The inner loop tests the accumulated buffer after each chunk, and only
    there: it stops at the first chunk boundary at which the buffer parses. *)
Lemma read_reply_boundaries (chunks : list bytes) (seen : bytes) :
  Forall (fun chunk => chunk <> []) chunks ->
  match (read_reply loads (map RecvBytes chunks) seen).1 with
  | Parsed r =>
      exists k, (k < length chunks)%nat
        /\ loads (seen ++ concat (take (S k) chunks)) = Some r
        /\ forall j, (j < k)%nat -> loads (seen ++ concat (take (S j) chunks)) = None
  | EndOfStream data =>
      data = seen ++ concat chunks
      /\ forall j, (j < length chunks)%nat ->
           loads (seen ++ concat (take (S j) chunks)) = None
  | RecvFailed _ => False
  end.
Proof.
  intros Hne. revert seen. induction Hne as [| chunk rest Hchunk _ IH]; intros seen.
  - cbn. rewrite app_nil_r. split; [reflexivity | intros j Hj; lia].
  - cbn [map]. rewrite read_reply_chunk by assumption.
    destruct (loads (seen ++ chunk)) as [r |] eqn:Hparse.
    + cbn. exists O. cbn. rewrite app_nil_r. repeat split; [lia | assumption |].
      intros j Hj. lia.
    + specialize (IH (seen ++ chunk)).
      destruct (read_reply loads (map RecvBytes rest) (seen ++ chunk)) as [[r | data | msg] unread];
        cbn in *.
      * destruct IH as (k & Hk & Hr & Hnone). exists (S k). repeat split.
        -- lia.
        -- cbn. now rewrite app_assoc.
        -- intros [| j] Hj; cbn.
           ++ now rewrite app_nil_r.
           ++ rewrite app_assoc. apply Hnone. lia.
      * destruct IH as (-> & Hnone). split; [now rewrite app_assoc |].
        intros [| j] Hj; cbn.
        -- now rewrite app_nil_r.
        -- rewrite app_assoc. apply Hnone. lia.
      * assumption.
Qed.

(** C6 (amended). For every way of cutting a byte stream into non-empty
    chunks, the read loop returns the parse of the first buffer, among those
    accumulated at the chunk boundaries, that is a complete JSON document,
    and reaches the end of the stream with everything read when none is. *)
Theorem C6_first_parse_at_chunk_boundary (chunks : list bytes) :
  Forall (fun chunk => chunk <> []) chunks ->
  match (read_reply loads (map RecvBytes chunks) []).1 with
  | Parsed r =>
      exists k, (k < length chunks)%nat
        /\ loads (concat (take (S k) chunks)) = Some r
        /\ forall j, (j < k)%nat -> loads (concat (take (S j) chunks)) = None
  | EndOfStream data =>
      data = concat chunks
      /\ forall j, (j < length chunks)%nat -> loads (concat (take (S j) chunks)) = None
  | RecvFailed _ => False
  end.
Proof.
  intros Hne. exact (read_reply_boundaries chunks [] Hne).
Qed.

(** ** The wait loop *)

(** The loop leaves only through [return response] or, once the deadline
    has been reached, through the final [raise]. *)
Lemma wait_deadline (fuel : nat) (sleep : nat -> World -> World) (n : nat)
    (start timeout : Z) (w w' : World (float:=float)) (e : PyExc) :
  wait fuel sleep n start timeout w = Some (w', Raise e) ->
  e = HTTPException 504 TIMEOUT_DETAIL /\ start + timeout <= clock w'.
Proof.
  revert n w. induction fuel as [| fuel IH]; intros n w; cbn; [discriminate |].
  unfold check. destruct (clock w - start <? timeout) eqn:Hlt.
  - destruct (response_queue w); [apply IH | discriminate].
  - intros [= <- <-]. split; [reflexivity | lia].
Qed.

(** With nothing ever on [response_queue] and sleeps of exactly 100 ms the
    loop ends by the timeout, less than one sleep after the deadline. *)
Lemma wait_times_out (sleep : nat -> World -> World) (start timeout : Z) :
  (forall n w, response_queue w = [] -> response_queue (sleep n w) = []) ->
  (forall n w, clock (sleep n w) = clock w + 100) ->
  forall (fuel n : nat) (w : World (float:=float)),
    response_queue w = [] ->
    clock w - start < timeout + 100 ->
    timeout - (clock w - start) <= 100 * (Z.of_nat fuel - 1) ->
    exists w', wait fuel sleep n start timeout w
               = Some (w', Raise (HTTPException 504 TIMEOUT_DETAIL))
               /\ start + timeout <= clock w' < start + timeout + 100.
Proof.
  intros Hquiet Htick. induction fuel as [| fuel IH]; intros n w Hq Hnear Hfuel.
  - lia.
  - cbn. unfold check. destruct (clock w - start <? timeout) eqn:Hlt.
    + rewrite Hq. apply IH.
      * now apply Hquiet.
      * rewrite Htick. lia.
      * rewrite Htick. lia.
    + exists w. split; [reflexivity | lia].
Qed.

(** C4. A command submitted with timeout [T >= 0] while nothing is, or is
    ever put, on [response_queue], each [time.sleep(0.1)] lasting 100 ms:
    the call raises [HTTPException(504, "MT5 timeout - EA not connecting")]
    at a time that is at least [T] and less than [T + 100] ms after the
    submission. [fuel] passes of the loop are enough as soon as
    [100 * (fuel - 1) >= T]. *)
Theorem C4_timeout_window (fuel : nat) (sleep : nat -> World -> World)
    (command : Json float) (T : Z) (w : World) :
  0 <= T ->
  response_queue w = [] ->
  (forall n w, response_queue w = [] -> response_queue (sleep n w) = []) ->
  (forall n w, clock (sleep n w) = clock w + 100) ->
  T <= 100 * (Z.of_nat fuel - 1) ->
  exists w', send_command_to_mt5 fuel sleep command T w
             = Some (w', Raise (HTTPException 504 "MT5 timeout - EA not connecting"))
             /\ clock w + T <= clock w' <= clock w + T + 100.
Proof.
  intros HT Hq Hquiet Htick Hfuel. unfold send_command_to_mt5.
  destruct (wait_times_out sleep (clock (command_queue_put command w)) T Hquiet Htick
              fuel O (command_queue_put command w)) as (w' & Hrun & Hlo & Hhi);
    cbn; try lia; try assumption.
  exists w'. cbn in *. split; [exact Hrun | lia].
Qed.

(** ** Endpoints *)

Lemma try_return_504 (call : option (World * Result (Json float))) (w : World)
    (detail : string) :
  call = Some (w, Raise (HTTPException 504 detail)) ->
  try_return str call = Some (w, Raise (HTTPException 500 (str (HTTPException 504 detail)))).
Proof.
  intros ->. reflexivity.
Qed.

Lemma try_return_not_504 (call : option (World * Result (Json float))) (w : World)
    (detail : string) :
  try_return str call <> Some (w, Raise (HTTPException 504 detail)).
Proof.
  destruct call as [[w0 [r | e]] |]; cbn; try discriminate.
  destruct e; cbn; discriminate.
Qed.

Lemma app_try_return (fuel : nat) (sleep : nat -> World -> World) (req : Request (float:=float))
    (w : World) :
  app str fuel sleep req w =
    try_return str (send_command_to_mt5 fuel sleep (command_of req) DEFAULT_TIMEOUT w).
Proof.
  destruct req; reflexivity.
Qed.

(** C9. In each of the seven endpoints, when [send_command_to_mt5] raises
    its timeout [HTTPException] with status 504, the endpoint's
    [except Exception] clause catches it and raises an [HTTPException] with
    status 500; no endpoint ever ends with status 504. *)
Theorem C9_timeout_surfaces_as_500 (fuel : nat) (sleep : nat -> World -> World)
    (req : Request (float:=float)) (w w' : World) (detail : string) :
  send_command_to_mt5 fuel sleep (command_of req) DEFAULT_TIMEOUT w
    = Some (w', Raise (HTTPException 504 detail)) ->
  app str fuel sleep req w
    = Some (w', Raise (HTTPException 500 (str (HTTPException 504 detail))))
  /\ forall w'' detail', app str fuel sleep req w
                          <> Some (w'', Raise (HTTPException 504 detail')).
Proof.
  intros Hcall. rewrite app_try_return. split.
  - now apply try_return_504.
  - intros w'' detail'. apply try_return_not_504.
Qed.

(** ** Schedules *)

Lemma run_cons (ev : Event) (schedule : list Event) (sys : System) :
  run dumps loads (ev :: schedule) sys = run dumps loads schedule (step dumps loads ev sys).
Proof. reflexivity. Qed.

Lemma run_app (first second : list Event) (sys : System) :
  run dumps loads (first ++ second) sys
  = run dumps loads second (run dumps loads first sys).
Proof. apply fold_left_app. Qed.

Lemma step_acceptor (ev : Event) (sys : System) :
  acceptor sys = Accepting -> acceptor (step dumps loads ev sys) = Accepting.
Proof.
  intros Hacc. destruct ev as [c T | i | ms | a]; cbn; try assumption.
  - destruct (calls sys !! i) as [call |]; [| assumption].
    destruct (progress call); [| assumption].
    destruct (clock (world sys) <? wake); [assumption |].
    destruct (check (start call) (timeout call) (world sys)) as [w []]; assumption.
  - rewrite Hacc. pose proof (accept_once_continues a (world sys)) as Hc.
    destruct (accept_once dumps loads a (world sys)) as [[w pass] ctl]. cbn in *.
    now subst ctl.
Qed.

Lemma run_acceptor (schedule : list Event) (sys : System) :
  acceptor sys = Accepting -> acceptor (run dumps loads schedule sys) = Accepting.
Proof.
  revert sys. induction schedule as [| ev rest IH]; intros sys Hacc; [assumption |].
  rewrite run_cons. apply IH. now apply step_acceptor.
Qed.

(** Only an accepted connection takes anything out of [command_queue]; any
    other event leaves it alone or, for a call, appends the command. *)
Lemma step_keeps_commands (ev : Event) (sys : System) :
  is_connection ev = false ->
  command_queue (world (step dumps loads ev sys))
  = command_queue (world sys) ++ submitted [ev]
  /\ connections (step dumps loads ev sys) = connections sys.
Proof.
  intros Hev. destruct ev as [c T | i | ms | [msg | address p]]; cbn;
    rewrite ?app_nil_r; try discriminate; auto.
  - destruct (calls sys !! i) as [call |]; [| auto].
    destruct (progress call); [| auto].
    destruct (clock (world sys) <? wake); [auto |].
    unfold check. destruct (clock (world sys) - start call <? timeout call); [| auto].
    destruct (response_queue (world sys)); auto.
  - destruct (acceptor sys); cbn; [| auto]. split; [reflexivity |].
    unfold connections. cbn. rewrite omap_app. cbn. now rewrite app_nil_r.
Qed.

Lemma submitted_app (first second : list (Event (float:=float))) :
  submitted (first ++ second) = submitted first ++ submitted second.
Proof. apply flat_map_app. Qed.

Lemma run_keeps_commands (schedule : list Event) (sys : System) :
  Forall (fun ev => is_connection ev = false) schedule ->
  command_queue (world (run dumps loads schedule sys))
  = command_queue (world sys) ++ submitted schedule
  /\ connections (run dumps loads schedule sys) = connections sys.
Proof.
  intros Hquiet. revert sys. induction Hquiet as [| ev rest Hev _ IH]; intros sys.
  - cbn. now rewrite app_nil_r.
  - rewrite run_cons. destruct (IH (step dumps loads ev sys)) as [Hq Hc].
    destruct (step_keeps_commands ev sys Hev) as [Hq1 Hc1].
    rewrite Hq, Hc, Hq1, Hc1. change (ev :: rest) with ([ev] ++ rest).
    rewrite submitted_app, app_assoc. auto.
Qed.

Lemma submitted_none (schedule : list (Event (float:=float))) :
  Forall (fun ev => is_invoke ev = false) schedule -> submitted schedule = [].
Proof.
  induction 1 as [| ev rest Hev _ IH]; [reflexivity |].
  destruct ev; cbn in *; try discriminate; assumption.
Qed.

(** An accepted connection is handed the command at the head of the queue. *)
Lemma step_connection (address : string) (p : Peer) (sys : System)
    (c : Json float) (rest : list (Json float)) :
  acceptor sys = Accepting ->
  command_queue (world sys) = c :: rest ->
  exists s, connections (step dumps loads (Arrive (Accepted address p)) sys)
            = connections sys ++ [s]
            /\ outbound s = [dumps c]
            /\ command_queue (world (step dumps loads (Arrive (Accepted address p)) sys))
               = rest.
Proof.
  intros Hacc Hq. cbn [step]. rewrite Hacc.
  destruct (accept_once_dispatch address p (world sys) c rest Hq) as (s & Hs & Hout & Hrest).
  destruct (accept_once dumps loads (Accepted address p) (world sys)) as [[w pass] ctl].
  cbn in *. exists s. unfold connections. cbn. rewrite omap_app. cbn. rewrite Hs.
  auto.
Qed.

(** C5. Commands [c1] then [c2] are submitted, in that order and with no
    other submission in between, while [command_queue] is empty and before
    any connection is accepted: whatever else the callers and the clock do,
    the first connection accepted afterwards is sent [c1] and the second is
    sent [c2]. *)
Theorem C5_fifo_dispatch (sys : System) (c1 c2 : Json float) (T1 T2 : Z)
    (mid1 mid2 mid3 : list Event) (a1 a2 : string) (p1 p2 : Peer) :
  acceptor sys = Accepting ->
  command_queue (world sys) = [] ->
  Forall (fun ev => is_connection ev = false) mid1 ->
  Forall (fun ev => is_invoke ev = false) mid1 ->
  Forall (fun ev => is_connection ev = false) mid2 ->
  Forall (fun ev => is_connection ev = false) mid3 ->
  exists s1 s2,
    connections
      (run dumps loads
         (Invoke c1 T1 :: mid1 ++ Invoke c2 T2 :: mid2
            ++ Arrive (Accepted a1 p1) :: mid3 ++ [Arrive (Accepted a2 p2)]) sys)
    = connections sys ++ [s1; s2]
    /\ outbound s1 = [dumps c1]
    /\ outbound s2 = [dumps c2].
Proof.
  intros Hacc Hempty Hq1 Hi1 Hq2 Hq3.
  rewrite run_cons, run_app, run_cons, run_app, run_cons, run_app.
  set (sysA := step dumps loads (Invoke c1 T1) sys).
  assert (HA : command_queue (world sysA) = [c1] /\ connections sysA = connections sys
               /\ acceptor sysA = Accepting).
  { subst sysA. cbn. rewrite Hempty. auto. }
  destruct HA as (HAq & HAc & HAa).
  set (sysB := run dumps loads mid1 sysA).
  destruct (run_keeps_commands mid1 sysA Hq1) as [HBq HBc]. fold sysB in HBq, HBc.
  rewrite (submitted_none mid1 Hi1), app_nil_r, HAq in HBq.
  assert (HBa : acceptor sysB = Accepting) by now apply run_acceptor.
  set (sysC := step dumps loads (Invoke c2 T2) sysB).
  assert (HC : command_queue (world sysC) = [c1; c2] /\ connections sysC = connections sysB
               /\ acceptor sysC = Accepting).
  { subst sysC. cbn. rewrite HBq. auto. }
  destruct HC as (HCq & HCc & HCa).
  set (sysD := run dumps loads mid2 sysC).
  destruct (run_keeps_commands mid2 sysC Hq2) as [HDq HDc]. fold sysD in HDq, HDc.
  rewrite HCq in HDq. cbn in HDq.
  assert (HDa : acceptor sysD = Accepting) by now apply run_acceptor.
  destruct (step_connection a1 p1 sysD c1 _ HDa HDq) as (s1 & HEc & Hout1 & HEq).
  set (sysE := step dumps loads (Arrive (Accepted a1 p1)) sysD) in *.
  assert (HEa : acceptor sysE = Accepting) by now apply step_acceptor.
  set (sysF := run dumps loads mid3 sysE).
  destruct (run_keeps_commands mid3 sysE Hq3) as [HFq HFc]. fold sysF in HFq, HFc.
  rewrite HEq in HFq. cbn in HFq.
  assert (HFa : acceptor sysF = Accepting) by now apply run_acceptor.
  destruct (step_connection a2 p2 sysF c2 _ HFa HFq) as (s2 & HGc & Hout2 & _).
  exists s1, s2. repeat split; try assumption.
  cbn [run fold_left]. rewrite HGc, HFc, HEc, HDc, HCc, HBc, HAc.
  now rewrite <- app_assoc.
Qed.




(** C2. Two callers submit [c1] and [c2] before any client connects. The
    first connection is sent [c1] and answers [r]; the second caller is the
    first to test [response_queue] and returns [r], the reply to the first
    caller's command, while the first caller is still waiting. *)
Theorem C2_crosstalk (c1 c2 r : Json float) (T1 T2 : Z) (a : string) (p : Peer) :
  0 < T2 ->
  sendall_raises p = None ->
  (read_reply loads (reads p) []).1 = Parsed r ->
  let final :=
    run dumps loads [Invoke c1 T1; Invoke c2 T2; Arrive (Accepted a p); Poll 1] boot in
  (exists s, connections final = [s] /\ outbound s = [dumps c1])
  /\ (exists call, calls final !! 1%nat = Some call
                   /\ command call = c2 /\ progress call = Done (Return r))
  /\ (exists call, calls final !! 0%nat = Some call
                   /\ command call = c1 /\ progress call = Waiting 0).
Proof.
  intros HT Hs Hr. cbn [run fold_left].
  set (sys2 := step dumps loads (Invoke c2 T2) (step dumps loads (Invoke c1 T1) boot)).
  assert (Hq : command_queue (world sys2) = [c1; c2]) by reflexivity.
  destruct (accept_once_reply a p (world sys2) c1 r [c2] Hq Hs Hr) as (Hrq & _ & _ & Hclock).
  destruct (accept_once_dispatch a p (world sys2) c1 [c2] Hq) as (s & Hsock & Hout & _).
  cbn [step]. change (acceptor sys2) with (Accepting). cbv iota.
  destruct (accept_once dumps loads (Accepted a p) (world sys2)) as [[w pass] ctl].
  cbn in Hrq, Hclock, Hsock. cbn. rewrite Hclock. cbn. unfold check.
  rewrite Hclock, Hrq.
  replace (0 - 0 <? T2) with true by (symmetry; apply Z.ltb_lt; lia).
  cbn. unfold connections. cbn. rewrite Hsock.
  split; [exists s; auto | split; eexists; (split; [reflexivity | auto])].
Qed.

(** ** A call on its own *)

Lemma check_sleep (start T : Z) (w w1 : World (float:=float)) :
  check start T w = (w1, Sleep) -> w1 = w.
Proof.
  unfold check. destruct (clock w - start <? T); [| discriminate].
  destruct (response_queue w); [| discriminate]. now intros [= <-].
Qed.

Lemma wait_alone (fuel n : nat) (sys : System) (i : nat) (c : Json float)
    (T t0 wake : Z) (w' : World) (res : Result (Json float)) :
  calls sys !! i = Some (mkCall c T t0 (Waiting wake)) ->
  wake <= clock (world sys) ->
  wait fuel undisturbed n t0 T (world sys) = Some (w', res) ->
  exists sleeps,
    let final := run dumps loads (alone i sleeps) sys in
    world final = w'
    /\ calls final = <[i := mkCall c T t0 (Done res)]> (calls sys)
    /\ passes final = passes sys.
Proof.
  revert n sys wake. induction fuel as [| fuel IH]; intros n sys wake Hi Hwake Hwait;
    [discriminate |].
  cbn in Hwait.
  assert (Hawake : (clock (world sys) <? wake) = false) by (apply Z.ltb_ge; lia).
  destruct (check t0 T (world sys)) as [w1 [r | |]] eqn:Hcheck.
  - injection Hwait as <- <-. exists O. cbn. rewrite Hi. cbn. rewrite Hawake, Hcheck.
    auto.
  - apply check_sleep in Hcheck as Hw1. subst w1.
    set (sys2 := step dumps loads (Elapse 100) (step dumps loads (Poll i) sys)).
    assert (Hsys2 : sys2 = mkSystem (time_passes 100 (world sys))
                             (<[i := mkCall c T t0 (Waiting (clock (world sys) + 100))]>
                                (calls sys))
                             (passes sys) (acceptor sys)).
    { subst sys2. cbn. rewrite Hi. cbn. rewrite Hawake, Hcheck. reflexivity. }
    destruct (IH (S n) sys2 (clock (world sys) + 100)) as (sleeps & Hw & Hc & Hp).
    + rewrite Hsys2. cbn. apply list_lookup_insert_eq. eapply lookup_lt_Some. exact Hi.
    + rewrite Hsys2. cbn. lia.
    + rewrite Hsys2. cbn. exact Hwait.
    + exists (S sleeps). cbn [alone]. rewrite !run_cons. fold sys2.
      cbn zeta in *. rewrite Hw, Hc, Hp, Hsys2. cbn.
      rewrite list_insert_insert_eq. auto.
  - injection Hwait as <- <-. exists O. cbn. rewrite Hi. cbn. rewrite Hawake, Hcheck.
    auto.
Qed.

(** A call that nothing disturbs: [send_command_to_mt5] returns what the
    schedule of that call alone leaves in the system. *)
Lemma send_command_to_mt5_alone (fuel : nat) (sys : System) (c : Json float) (T : Z)
    (w' : World) (res : Result (Json float)) :
  send_command_to_mt5 fuel undisturbed c T (world sys) = Some (w', res) ->
  exists sleeps,
    let final := run dumps loads (Invoke c T :: alone (length (calls sys)) sleeps) sys in
    world final = w'
    /\ calls final = calls sys ++ [mkCall c T (clock (world sys)) (Done res)]
    /\ passes final = passes sys.
Proof.
  unfold send_command_to_mt5. intros Hwait.
  set (sys1 := step dumps loads (Invoke c T) sys).
  destruct (wait_alone fuel O sys1 (length (calls sys)) c T (clock (world sys))
              (clock (world sys)) w' res) as (sleeps & Hw & Hc & Hp).
  - subst sys1. cbn. apply list_lookup_middle. reflexivity.
  - subst sys1. cbn. lia.
  - exact Hwait.
  - exists sleeps. rewrite run_cons. fold sys1. cbn zeta in *. rewrite Hw, Hc, Hp.
    subst sys1. cbn. repeat split; try reflexivity.
    replace (length (calls sys)) with (length (calls sys) + 0)%nat by lia.
    rewrite insert_app_r. reflexivity.
Qed.

(** ** More on one pass of the accept loop *)


(** X3. When the write of a command raises, the command is lost: it has left
    [command_queue] and is not put back, nothing is put on
    [response_queue], the error is reported and the connection is not
    closed. *)
Theorem failed_write_loses_command (address : string) (p : Peer) (w : World)
    (c : Json float) (rest : list (Json float)) (msg : string) :
  command_queue w = c :: rest ->
  sendall_raises p = Some msg ->
  accept_once dumps loads (Accepted address p) w
  = (mkWorld rest (response_queue w) (response w)
       (stdout w ++ [Connected address; ServerError (OSError msg)]) (clock w),
     mkPass (Some (mkSocket p (reads p) [dumps c] false)) (Some (OSError msg)),
     Continue).
Proof.
  intros Hq Hs. run_serve. rewrite Hq. cbn. rewrite Hs. cbn.
  unfold set_stdout, set_command_queue. cbn. now rewrite <- app_assoc.
Qed.

(** X4. When a read of the reply raises, the command that was sent is lost
    in the same way: it is gone from [command_queue], nothing is put on
    [response_queue], [response] keeps its old value, the error is reported
    and the connection is not closed. *)
Theorem failed_read_loses_command (address : string) (p : Peer) (w : World)
    (c : Json float) (rest : list (Json float)) (msg : string) :
  command_queue w = c :: rest ->
  sendall_raises p = None ->
  (read_reply loads (reads p) []).1 = RecvFailed msg ->
  let '(w', pass, _) := accept_once dumps loads (Accepted address p) w in
  command_queue w' = rest
  /\ response_queue w' = response_queue w
  /\ response w' = response w
  /\ stdout w' = stdout w ++ [Connected address; SentToMQL5 (take 100 (dumps c));
                               ServerError (OSError msg)]
  /\ caught pass = Some (OSError msg)
  /\ (exists s, socket pass = Some s /\ outbound s = [dumps c] /\ close_called s = false).
Proof.
  intros Hq Hs Hr. run_serve. rewrite Hq. cbn. rewrite Hs. cbn.
  destruct (read_reply loads (reads p) []) as [framed unread]. cbn in Hr. subst framed.
  cbn. rewrite <- !app_assoc. eauto 10.
Qed.

(** ** More on the accept loop *)

Lemma accept_once_commands (a : Accept) (w : World) :
  command_queue (accept_once dumps loads a w).1.1
  = drop (accepted [a]) (command_queue w).
Proof.
  destruct a as [msg | address p]; [reflexivity |].
  cbn [accepted]. destruct (command_queue w) as [| c rest] eqn:Hq;
    run_serve; rewrite Hq; cbn; split_cases; rewrite ?Hq; reflexivity.
Qed.

Lemma accept_once_responses (a : Accept) (w : World) :
  exists more,
    response_queue (accept_once dumps loads a w).1.1 = response_queue w ++ more
    /\ (length more + length (command_queue (accept_once dumps loads a w).1.1)
        <= length (command_queue w))%nat.
Proof.
  destruct a as [msg | address p].
  - exists []. cbn. rewrite app_nil_r. split; [reflexivity | lia].
  - destruct (command_queue w) as [| c rest] eqn:Hq;
      run_serve; rewrite Hq; cbn; split_cases;
      rewrite ?Hq;
      first [ exists []; cbn; rewrite app_nil_r; split; [reflexivity | lia]
            | eexists [_]; cbn; split; [reflexivity | lia] ].
Qed.

(** X5. Run over any sequence of [accept()] results, the loop takes exactly
    one command from the head of [command_queue] for each accepted
    connection, as long as there is one, whether or not the exchange on that
    connection succeeds. *)
Theorem tcp_server_takes_one_command_per_connection (incoming : list Accept)
    (w : World) :
  command_queue (tcp_server dumps loads incoming w).1.1
  = drop (accepted incoming) (command_queue w).
Proof.
  revert w. induction incoming as [| a rest IH]; intros w; [reflexivity |].
  rewrite tcp_server_cons. pose proof (accept_once_commands a w) as Ha.
  destruct (accept_once dumps loads a w) as [[w1 pass] ctl]. cbn in Ha.
  specialize (IH w1). destruct (tcp_server dumps loads rest w1) as [[w2 passes] status].
  cbn in IH. cbn [fst]. rewrite IH, Ha.
  destruct a as [msg | address p]; cbn [accepted]; [reflexivity |].
  rewrite drop_drop. f_equal.
Qed.

(** X6. The loop only ever appends to [response_queue], and never more
    responses than it took commands: an idle connection or a failed
    [accept()] enqueues nothing. *)
Theorem tcp_server_responses_bounded (incoming : list Accept) (w : World) :
  exists more,
    response_queue (tcp_server dumps loads incoming w).1.1 = response_queue w ++ more
    /\ (length more + length (command_queue (tcp_server dumps loads incoming w).1.1)
        <= length (command_queue w))%nat.
Proof.
  revert w. induction incoming as [| a rest IH]; intros w.
  - exists []. cbn. rewrite app_nil_r. split; [reflexivity | lia].
  - rewrite tcp_server_cons. destruct (accept_once_responses a w) as (m1 & H1 & L1).
    destruct (accept_once dumps loads a w) as [[w1 pass] ctl]. cbn in H1, L1.
    destruct (IH w1) as (m2 & H2 & L2).
    destruct (tcp_server dumps loads rest w1) as [[w2 passes] status]. cbn in *.
    exists (m1 ++ m2). rewrite H2, H1, app_assoc, length_app. split; [reflexivity | lia].
Qed.

Lemma accept_once_response_kept (a : Accept) (w : World) (r0 : Json float) :
  response w = Some r0 ->
  (exists r1, response (accept_once dumps loads a w).1.1 = Some r1)
  /\ forall name, caught (accept_once dumps loads a w).1.2 <> Some (UnboundLocalError name).
Proof.
  intros H0. destruct a as [msg | address p].
  - cbn. split; [eauto | discriminate].
  - run_serve.
    destruct (command_queue w); cbn; (destruct (sendall_raises p); cbn);
      try (destruct (read_reply loads (reads p) []) as [[r | data | err] unread]; cbn);
      rewrite ?H0; cbn; try (destruct (close_raises p); cbn);
      (split; [eauto | intros; congruence]).
Qed.

(** X7. Once a connection has delivered a complete reply, [response] stays
    assigned for the life of the thread, so no later pass raises
    [UnboundLocalError]: from then on a client that closes early is never
    reported through that error. *)
Theorem response_stays_assigned (incoming : list Accept) (w : World) (r0 : Json float) :
  response w = Some r0 ->
  let '(w', passes, _) := tcp_server dumps loads incoming w in
  (exists r1, response w' = Some r1)
  /\ forall pass name, In pass passes -> caught pass <> Some (UnboundLocalError name).
Proof.
  revert w r0. induction incoming as [| a rest IH]; intros w r0 H0.
  - cbn. split; [eauto | intros pass name []].
  - rewrite tcp_server_cons. destruct (accept_once_response_kept a w r0 H0) as [[r1 H1] Hc].
    destruct (accept_once dumps loads a w) as [[w1 pass] ctl]. cbn in H1, Hc.
    specialize (IH w1 r1 H1).
    destruct (tcp_server dumps loads rest w1) as [[w2 passes] status].
    destruct IH as [Hr Hp]. split; [exact Hr |].
    intros pass' name [<- | Hin]; [apply Hc | now apply Hp].
Qed.

(** ** More on framing *)

Lemma concat_nonempty (chunks : list bytes) :
  chunks <> [] -> Forall (fun chunk => chunk <> []) chunks -> concat chunks <> [].
Proof.
  destruct chunks as [| chunk rest]; [congruence |]. intros _ Hne.
  inversion Hne as [| ? ? Hchunk _]; subst. cbn. destruct chunk; [congruence | discriminate].
Qed.

(** X8. A reply none of whose proper prefixes parses (an object or a list,
    for instance) comes out of the read loop as its parse however the
    stream is cut into non-empty chunks. *)
Theorem self_delimiting_reply_any_chunking (stream : bytes) (r : Json float)
    (chunks : list bytes) :
  loads stream = Some r ->
  (forall pre suf, stream = pre ++ suf -> suf <> [] -> loads pre = None) ->
  stream <> [] ->
  concat chunks = stream ->
  Forall (fun chunk => chunk <> []) chunks ->
  (read_reply loads (map RecvBytes chunks) []).1 = Parsed r.
Proof.
  intros Hparse Hfree Hstream Hcat Hne. subst stream.
  assert (Hlen : (0 < length chunks)%nat).
  { destruct chunks; [cbn in Hstream; congruence | cbn; lia]. }
  pose proof (read_reply_boundaries chunks [] Hne) as Hb. cbn [app] in Hb.
  destruct ((read_reply loads (map RecvBytes chunks) []).1) as [r' | data | msg].
  - destruct Hb as (k & Hk & Hr & _). rewrite app_nil_l in Hr.
    destruct (decide (S k = length chunks)) as [Hlast | Hmid].
    + rewrite take_ge in Hr by lia. congruence.
    + rewrite (Hfree (concat (take (S k) chunks)) (concat (drop (S k) chunks))) in Hr.
      * discriminate.
      * now rewrite <- concat_app, take_drop.
      * apply concat_nonempty.
        -- intros Hnil. apply (f_equal length) in Hnil. rewrite length_drop in Hnil.
           cbn in Hnil. lia.
        -- now apply Forall_drop.
  - destruct Hb as [_ Hnone]. specialize (Hnone (length chunks - 1)%nat).
    replace (S (length chunks - 1)) with (length chunks) in Hnone by lia.
    rewrite take_ge, app_nil_l in Hnone by lia. rewrite Hnone in Hparse by lia.
    discriminate.
  - contradiction.
Qed.

(** ** More on the wait loop *)

(** X9. In any environment, [send_command_to_mt5] raises nothing but its
    [HTTPException(504, "MT5 timeout - EA not connecting")], and never before
    [timeout] has gone by since the submission. *)
Theorem send_command_to_mt5_raises_only_timeout (fuel : nat)
    (sleep : nat -> World -> World) (c : Json float) (T : Z) (w w' : World)
    (e : PyExc) :
  send_command_to_mt5 fuel sleep c T w = Some (w', Raise e) ->
  e = HTTPException 504 "MT5 timeout - EA not connecting"
  /\ clock w + T <= clock w'.
Proof.
  unfold send_command_to_mt5. intros Hwait.
  apply wait_deadline in Hwait. exact Hwait.
Qed.

(** X10. With a timeout that is zero or negative the command is still put
    on [command_queue], and the call fails at once without looking at
    [response_queue]. *)
Theorem nonpositive_timeout_still_enqueues (fuel : nat) (sleep : nat -> World -> World)
    (c : Json float) (T : Z) (w : World) :
  T <= 0 ->
  send_command_to_mt5 (S fuel) sleep c T w
  = Some (mkWorld (command_queue w ++ [c]) (response_queue w) (response w) (stdout w)
            (clock w),
          Raise (HTTPException 504 TIMEOUT_DETAIL)).
Proof.
  intros HT. unfold send_command_to_mt5. cbn. unfold check. cbn.
  replace (clock w - clock w <? T) with false by (symmetry; apply Z.ltb_ge; lia).
  reflexivity.
Qed.

(** ** More on the endpoints *)


(** ** More on schedules *)


Lemma poll_got (sys : System) (i : nat) (call : Call) (wake : Z) (r : Json float)
    (rest : list (Json float)) :
  calls sys !! i = Some call ->
  progress call = Waiting wake ->
  wake <= clock (world sys) ->
  clock (world sys) - start call < timeout call ->
  response_queue (world sys) = r :: rest ->
  step dumps loads (Poll i) sys
  = mkSystem (set_response_queue rest (world sys))
      (<[i := mkCall (command call) (timeout call) (start call) (Done (Return r))]>
         (calls sys))
      (passes sys) (acceptor sys).
Proof.
  intros Hi Hp Hwake Hlive Hrq. cbn [step]. rewrite Hi, Hp.
  replace (clock (world sys) <? wake) with false by (symmetry; apply Z.ltb_ge; lia).
  unfold check.
  replace (clock (world sys) - start call <? timeout call) with true
    by (symmetry; apply Z.ltb_lt; lia).
  rewrite Hrq. reflexivity.
Qed.

Lemma poll_sleep (sys : System) (i : nat) (call : Call) (wake : Z) :
  calls sys !! i = Some call ->
  progress call = Waiting wake ->
  wake <= clock (world sys) ->
  clock (world sys) - start call < timeout call ->
  response_queue (world sys) = [] ->
  step dumps loads (Poll i) sys
  = mkSystem (world sys)
      (<[i := mkCall (command call) (timeout call) (start call)
                (Waiting (clock (world sys) + 100))]> (calls sys))
      (passes sys) (acceptor sys).
Proof.
  intros Hi Hp Hwake Hlive Hrq. cbn [step]. rewrite Hi, Hp.
  replace (clock (world sys) <? wake) with false by (symmetry; apply Z.ltb_ge; lia).
  unfold check.
  replace (clock (world sys) - start call <? timeout call) with true
    by (symmetry; apply Z.ltb_lt; lia).
  rewrite Hrq. reflexivity.
Qed.

(** X12. One response and two callers waiting within their deadlines: the
    caller that tests first returns it and takes it off [response_queue];
    the other finds the queue empty and goes back to sleep. A response is
    handed to one caller only. *)
Theorem one_response_one_caller (sys : System) (i j : nat) (ci cj : Call)
    (wi wj : Z) (r : Json float) :
  i <> j ->
  calls sys !! i = Some ci -> progress ci = Waiting wi ->
  calls sys !! j = Some cj -> progress cj = Waiting wj ->
  wi <= clock (world sys) -> wj <= clock (world sys) ->
  clock (world sys) - start ci < timeout ci ->
  clock (world sys) - start cj < timeout cj ->
  response_queue (world sys) = [r] ->
  let final := run dumps loads [Poll i; Poll j] sys in
  (exists ci', calls final !! i = Some ci' /\ progress ci' = Done (Return r))
  /\ (exists cj', calls final !! j = Some cj'
                  /\ progress cj' = Waiting (clock (world sys) + 100))
  /\ response_queue (world final) = [].
Proof.
  intros Hij Hi Hpi Hj Hpj Hwi Hwj Hli Hlj Hrq. cbn [run fold_left].
  rewrite (poll_got sys i ci wi r [] Hi Hpi Hwi Hli Hrq).
  set (sys1 := mkSystem _ _ _ _).
  assert (Hj1 : calls sys1 !! j = Some cj).
  { subst sys1. cbn. rewrite list_lookup_insert_ne by assumption. exact Hj. }
  rewrite (poll_sleep sys1 j cj wj Hj1 Hpj); try (subst sys1; cbn; assumption || reflexivity).
  subst sys1. cbn. repeat split.
  - eexists. split.
    + rewrite list_lookup_insert_ne by congruence.
      apply list_lookup_insert_eq. eapply lookup_lt_Some. exact Hi.
    + reflexivity.
  - eexists. split.
    + apply list_lookup_insert_eq. rewrite length_insert. eapply lookup_lt_Some. exact Hj.
    + reflexivity.
Qed.


(** X14. Callers never take anything out of [command_queue]: over any
    schedule without an accepted connection (calls, tests of the queue that
    return, sleep or time out, clock moves, failed [accept()] calls) the
    queue is what it was, followed by the commands submitted meanwhile. *)
Theorem only_connections_take_commands (schedule : list Event) (sys : System) :
  Forall (fun ev => is_connection ev = false) schedule ->
  command_queue (world (run dumps loads schedule sys))
  = command_queue (world sys) ++ submitted schedule.
Proof.
  intros Hquiet. exact (proj1 (run_keeps_commands schedule sys Hquiet)).
Qed.

(** ** Responses are handed out in the order they were queued *)






End Properties.

(** * Worked examples

    The properties above at concrete inputs, with the codec of [Example],
    and the scenarios in which the bridge departs from its specification. *)

Example dumps_get_stats :
  Example.dumps get_stats_command = Example.ascii_bytes "{`action`: `GET_STATS`}".
Proof. reflexivity. Qed.

Example loads_balance : Example.loads Example.balance_reply = Some Example.balance.
Proof. reflexivity. Qed.

Example after_timeout_state :
  world Example.after_timeout = mkWorld [get_stats_command] [] None [] 1000
  /\ calls Example.after_timeout
     = [mkCall get_stats_command 1000 0 (Done (Raise (HTTPException 504 TIMEOUT_DETAIL)))].
Proof. split; reflexivity. Qed.


(** C4 with a timeout of one second and nobody else around. *)
Lemma C4_timeout_window_witness :
  exists w', send_command_to_mt5 12 undisturbed (get_stats_command (float:=Example.float))
               1000 start_of_day
             = Some (w', Raise (HTTPException 504 "MT5 timeout - EA not connecting"))
             /\ clock (start_of_day (float:=Example.float)) + 1000 <= clock w'
                <= clock (start_of_day (float:=Example.float)) + 1000 + 100.
Proof.
  apply (C4_timeout_window 12 undisturbed get_stats_command 1000 start_of_day).
  - lia.
  - reflexivity.
  - intros n w Hq. exact Hq.
  - intros n w. reflexivity.
  - lia.
Defined.

(** C6 (amended) on a reply that arrives in two pieces. *)
Lemma C6_first_parse_at_chunk_boundary_witness :
  let chunks := [Example.ascii_bytes "{`balance`"; Example.ascii_bytes ": 1000}"] in
  Forall (fun chunk => chunk <> []) chunks
  /\ match (read_reply Example.loads (map RecvBytes chunks) []).1 with
     | Parsed r =>
         exists k, (k < length chunks)%nat
           /\ Example.loads (concat (take (S k) chunks)) = Some r
           /\ forall j, (j < k)%nat -> Example.loads (concat (take (S j) chunks)) = None
     | EndOfStream data =>
         data = concat chunks
         /\ forall j, (j < length chunks)%nat ->
              Example.loads (concat (take (S j) chunks)) = None
     | RecvFailed _ => False
     end.
Proof.
  intros chunks.
  assert (Hne : Forall (fun chunk : bytes => chunk <> []) chunks)
    by (repeat constructor; discriminate).
  split; [exact Hne |].
  exact (C6_first_parse_at_chunk_boundary Example.loads chunks Hne).
Defined.

(** C9 on [GET /stats] with nobody answering. *)
Lemma C9_timeout_surfaces_as_500_witness :
  let w' := mkWorld [get_stats_command (float:=Example.float)] [] None [] 10000 in
  send_command_to_mt5 102 undisturbed (command_of GET_stats) DEFAULT_TIMEOUT start_of_day
    = Some (w', Raise (HTTPException 504 TIMEOUT_DETAIL))
  /\ app Example.str 102 undisturbed GET_stats start_of_day
     = Some (w', Raise (HTTPException 500 "504: MT5 timeout - EA not connecting")).
Proof.
  intros w'.
  assert (Hcall : send_command_to_mt5 102 undisturbed (command_of GET_stats) DEFAULT_TIMEOUT
                    start_of_day
                  = Some (w', Raise (HTTPException 504 TIMEOUT_DETAIL)))
    by (vm_compute; reflexivity).
  split; [exact Hcall |].
  exact (proj1 (C9_timeout_surfaces_as_500 Example.str 102 undisturbed GET_stats
                  start_of_day w' TIMEOUT_DETAIL Hcall)).
Defined.

(** C5 with two callers that keep polling while two clients connect. *)
Lemma C5_fifo_dispatch_witness :
  let c1 := get_stats_command (float:=Example.float) in
  let c2 := get_positions_command (float:=Example.float) in
  let mid1 := [Poll 0; Elapse 100] in
  let mid2 := [Elapse 100; Poll 1] in
  let mid3 := [Poll 0] in
  let p1 := Example.sends [Example.balance_reply] in
  let p2 := Example.hangs_up in
  exists s1 s2,
    connections
      (run Example.dumps Example.loads
         (Invoke c1 10000 :: mid1 ++ Invoke c2 10000 :: mid2
            ++ Arrive (Accepted Example.EA p1) :: mid3 ++ [Arrive (Accepted Example.EA p2)])
         boot)
    = connections (boot (float:=Example.float)) ++ [s1; s2]
    /\ outbound s1 = [Example.dumps c1]
    /\ outbound s2 = [Example.dumps c2].
Proof.
  intros c1 c2 mid1 mid2 mid3 p1 p2.
  apply (C5_fifo_dispatch Example.dumps Example.loads boot c1 c2 10000 10000
           mid1 mid2 mid3 Example.EA Example.EA p1 p2);
    try reflexivity; repeat constructor.
Defined.



(** Two calls have timed out; their replies 1 and 2 arrive late and are
    handed, in that order, to the two callers that come next: the older
    late reply first. *)
Example late_replies_in_order :
  let late1 := Accepted Example.EA (Example.sends [Example.ascii_bytes "1"]) in
  let late2 := Accepted Example.EA (Example.sends [Example.ascii_bytes "2"]) in
  let schedule :=
    [Arrive late1; Arrive late2; Invoke get_orders_command 10000; Poll 2;
     Invoke (delete_order_command 7) 10000; Poll 3] in
  let final := run Example.dumps Example.loads schedule Example.after_two_timeouts in
  map progress (calls final)
  = [Done (Raise (HTTPException 504 TIMEOUT_DETAIL));
     Done (Raise (HTTPException 504 TIMEOUT_DETAIL));
     Done (Return (JInt 1)); Done (Return (JInt 2))]
  /\ map outbound (connections final)
     = [[Example.dumps get_stats_command]; [Example.dumps get_positions_command]]
  /\ handed Example.dumps Example.loads schedule Example.after_two_timeouts
     = [JInt 1; JInt 2]
  /\ delivered Example.dumps Example.loads schedule Example.after_two_timeouts
     = [JInt 1; JInt 2].
Proof. repeat split. Qed.

(** C2 with GET_STATS and GET_POSITIONS. *)
Lemma C2_crosstalk_witness :
  let c1 := get_stats_command (float:=Example.float) in
  let c2 := get_positions_command (float:=Example.float) in
  let p := Example.sends [Example.balance_reply] in
  let final :=
    run Example.dumps Example.loads
      [Invoke c1 10000; Invoke c2 10000; Arrive (Accepted Example.EA p); Poll 1] boot in
  (exists s, connections final = [s] /\ outbound s = [Example.dumps c1])
  /\ (exists call, calls final !! 1%nat = Some call
                   /\ command call = c2 /\ progress call = Done (Return Example.balance))
  /\ (exists call, calls final !! 0%nat = Some call
                   /\ command call = c1 /\ progress call = Waiting 0).
Proof.
  intros c1 c2 p final.
  apply (C2_crosstalk Example.dumps Example.loads c1 c2 Example.balance 10000 10000
           Example.EA p); [lia | reflexivity | reflexivity].
Defined.

(** ** A round trip

    GET_STATS is submitted with a timeout of five seconds; during the
    caller's second sleep the EA connects, is sent the command and answers
    with the balance; the caller returns the balance 200 ms after the
    submission and both queues are empty again. *)
Example round_trip :
  let during n :=
    match n with
    | 1%nat => [Accepted Example.EA (Example.sends [Example.balance_reply])]
    | _ => []
    end in
  send_command_to_mt5 60 (meanwhile Example.dumps Example.loads during)
    get_stats_command 5000 start_of_day
  = Some (mkWorld [] [] (Some Example.balance)
            [Connected Example.EA;
             SentToMQL5 (Example.dumps get_stats_command);
             ReceivedFromMQL5 Example.balance]
            200,
          Return Example.balance).
Proof. reflexivity. Qed.

(** ** Where the bridge departs from its specification *)


(** C6 as stated fails. The stream [12] parses as 12 when it arrives in one
    chunk and as 1 when it arrives in two; the shortest prefix that is a
    complete document is [1]. *)
Lemma C6_chunk_boundaries_matter :
  let whole := [Example.ascii_bytes "12"] in
  let halves := [Example.ascii_bytes "1"; Example.ascii_bytes "2"] in
  concat whole = concat halves
  /\ Forall (fun chunk => chunk <> []) whole
  /\ Forall (fun chunk => chunk <> []) halves
  /\ (read_reply Example.loads (map RecvBytes whole) []).1 = Parsed (JInt 12)
  /\ (read_reply Example.loads (map RecvBytes halves) []).1 = Parsed (JInt 1)
  /\ spec_first_document Example.loads [] (concat whole) = Some (JInt 1).
Proof.
  cbv zeta. repeat split; repeat constructor; discriminate.
Qed.



(** C3: the code does not do what the claim says. Two commands are queued.
    (a) The first client answers with the balance; the second is sent the
    second command and closes without a byte: the acceptor reports no
    failure and puts the first client's balance on [response_queue] a second
    time. (b) With the client that closes coming first, reading [response]
    raises [UnboundLocalError]; it is reported, nothing is enqueued, and
    [close()] is never called on the connection. (c) The same when the
    client sends the beginning of a document and closes. *)
Theorem C3_peer_close_is_mishandled :
  let w := mkWorld [get_stats_command; get_positions_command] [] None [] 0 in
  let answers := Accepted Example.EA (Example.sends [Example.balance_reply]) in
  let closes := Accepted Example.EA Example.hangs_up in
  let truncates :=
    Accepted Example.EA (Example.sends [Example.ascii_bytes "{`balance`: 10"]) in
  let closed_flags passes := map (fun pass => option_map close_called (socket pass)) passes in
  (let '(w', passes, _) := tcp_server Example.dumps Example.loads [answers; closes] w in
   response_queue w' = [Example.balance; Example.balance]
   /\ map caught passes = [None; None]
   /\ closed_flags passes = [Some true; Some true])
  /\ (let '(w', passes, _) := tcp_server Example.dumps Example.loads [closes] w in
      response_queue w' = []
      /\ map caught passes = [Some (UnboundLocalError "response")]
      /\ closed_flags passes = [Some false])
  /\ (let '(w', passes, _) := tcp_server Example.dumps Example.loads [truncates] w in
      response_queue w' = []
      /\ map caught passes = [Some (UnboundLocalError "response")]
      /\ closed_flags passes = [Some false]).
Proof. repeat split. Qed.

(** ** More worked examples *)

(** The write of GET_STATS fails on a broken pipe. *)
Lemma failed_write_loses_command_witness :
  let w := mkWorld [get_stats_command; get_positions_command] [] None [] 0 in
  accept_once Example.dumps Example.loads (Accepted Example.EA Example.broken_pipe) w
  = (mkWorld [get_positions_command] [] None
       [Connected Example.EA; ServerError (OSError "[Errno 32] Broken pipe")] 0,
     mkPass (Some (mkSocket Example.broken_pipe [] [Example.dumps get_stats_command] false))
       (Some (OSError "[Errno 32] Broken pipe")),
     Continue).
Proof.
  intros w.
  exact (failed_write_loses_command Example.dumps Example.loads Example.EA
           Example.broken_pipe w get_stats_command [get_positions_command]
           "[Errno 32] Broken pipe" eq_refl eq_refl).
Defined.

(** The connection is reset in the middle of the reply to GET_STATS. *)
Lemma failed_read_loses_command_witness :
  let w := mkWorld [get_stats_command (float:=Example.float)] [] None [] 0 in
  let msg := "[Errno 104] Connection reset by peer" in
  let '(w', pass, _) :=
    accept_once Example.dumps Example.loads (Accepted Example.EA Example.resets) w in
  command_queue w' = []
  /\ response_queue w' = response_queue w
  /\ response w' = response w
  /\ stdout w' = stdout w ++ [Connected Example.EA;
                               SentToMQL5 (take 100 (Example.dumps get_stats_command));
                               ServerError (OSError msg)]
  /\ caught pass = Some (OSError msg)
  /\ (exists s, socket pass = Some s
                /\ outbound s = [Example.dumps get_stats_command]
                /\ close_called s = false).
Proof.
  intros w msg.
  exact (failed_read_loses_command Example.dumps Example.loads Example.EA Example.resets w
           get_stats_command [] msg eq_refl eq_refl eq_refl).
Defined.

(** After one complete reply, two clients that close early. *)
Lemma response_stays_assigned_witness :
  let w := mkWorld [get_stats_command; get_positions_command] [] (Some Example.balance)
             [] 0 in
  let incoming := [Accepted Example.EA Example.hangs_up; AcceptRaises "[Errno 24]";
                   Accepted Example.EA Example.hangs_up] in
  let '(w', passes, _) := tcp_server Example.dumps Example.loads incoming w in
  (exists r1, response w' = Some r1)
  /\ forall pass name, In pass passes -> caught pass <> Some (UnboundLocalError name).
Proof.
  intros w incoming.
  exact (response_stays_assigned Example.dumps Example.loads incoming w Example.balance
           eq_refl).
Defined.

(** The empty object arriving one byte at a time. *)
Lemma self_delimiting_reply_any_chunking_witness :
  (read_reply Example.loads
     (map RecvBytes [Example.ascii_bytes "{"; Example.ascii_bytes "}"]) []).1
  = Parsed (JDict []).
Proof.
  apply (self_delimiting_reply_any_chunking Example.loads (Example.ascii_bytes "{}")
           (JDict []) [Example.ascii_bytes "{"; Example.ascii_bytes "}"]).
  - reflexivity.
  - intros pre suf Hsplit Hsuf.
    destruct pre as [| b1 [| b2 [| b3 pre]]]; cbn in Hsplit.
    + reflexivity.
    + injection Hsplit as <- _. reflexivity.
    + injection Hsplit as _ _ <-. congruence.
    + discriminate.
  - discriminate.
  - reflexivity.
  - repeat constructor; discriminate.
Defined.

(** A one-second timeout with nobody answering. *)
Lemma send_command_to_mt5_raises_only_timeout_witness :
  let w' := mkWorld [get_stats_command (float:=Example.float)] [] None [] 1000 in
  send_command_to_mt5 12 undisturbed get_stats_command 1000 start_of_day
  = Some (w', Raise (HTTPException 504 TIMEOUT_DETAIL))
  /\ HTTPException 504 TIMEOUT_DETAIL
     = HTTPException 504 "MT5 timeout - EA not connecting"
  /\ clock (start_of_day (float:=Example.float)) + 1000 <= clock w'.
Proof.
  intros w'.
  assert (Hcall : send_command_to_mt5 12 undisturbed get_stats_command 1000 start_of_day
                  = Some (w', Raise (HTTPException 504 TIMEOUT_DETAIL)))
    by reflexivity.
  split; [exact Hcall |].
  exact (send_command_to_mt5_raises_only_timeout 12 undisturbed get_stats_command 1000
           start_of_day w' (HTTPException 504 TIMEOUT_DETAIL) Hcall).
Defined.

(** A timeout of zero while a reply is waiting. *)
Lemma nonpositive_timeout_still_enqueues_witness :
  let w := mkWorld [] [Example.balance] None [] 0 in
  send_command_to_mt5 1 undisturbed (get_stats_command (float:=Example.float)) 0 w
  = Some (mkWorld [get_stats_command] [Example.balance] None [] 0,
          Raise (HTTPException 504 TIMEOUT_DETAIL)).
Proof.
  intros w.
  apply (nonpositive_timeout_still_enqueues 0 undisturbed get_stats_command 0 w). lia.
Defined.


(** The two callers of [two_waiting] and its single reply. *)
Lemma one_response_one_caller_witness :
  let final := run Example.dumps Example.loads [Poll 0; Poll 1] Example.two_waiting in
  (exists ci', calls final !! 0%nat = Some ci' /\ progress ci' = Done (Return Example.balance))
  /\ (exists cj', calls final !! 1%nat = Some cj'
                  /\ progress cj' = Waiting (clock (world Example.two_waiting) + 100))
  /\ response_queue (world final) = [].
Proof.
  apply (one_response_one_caller Example.dumps Example.loads Example.two_waiting 0 1
           (mkCall get_stats_command 10000 0 (Waiting 300))
           (mkCall get_positions_command 10000 100 (Waiting 300))
           300 300 Example.balance);
    first [reflexivity | lia | cbn; lia].
Defined.


(** Polls, a timeout and a failed accept leave GET_STATS queued. *)
Lemma only_connections_take_commands_witness :
  let schedule := [Invoke (get_stats_command (float:=Example.float)) 1000; Poll 0;
                   Arrive (AcceptRaises "[Errno 24] Too many open files");
                   Elapse 1000; Poll 0] in
  command_queue (world (run Example.dumps Example.loads schedule boot))
  = command_queue (world boot) ++ submitted schedule.
Proof.
  intros schedule.
  apply (only_connections_take_commands Example.dumps Example.loads schedule boot).
  repeat constructor.
Defined.
